(** * Timer input capture demo (stm32plus): a shallow embedding

    The example [examples/timer_input_capture/timer_input_capture.cpp]
    measures the frequency of a PWM signal.  An interrupt handler
    ([TimerInputCaptureTest::onInterrupt]) stores two successive capture
    values and, when the main loop is waiting for a result, publishes a
    frequency; the main loop ([TimerInputCaptureTest::run]) polls a flag,
    writes the frequency to the USART and re-arms after a pause.

    The object's [volatile] members are modelled as a record, the handler
    as a computation in a small state-and-fault monad that also records
    every store it performs, and the interplay of the handler with the main
    loop as a machine stepped by a schedule of interrupts and main-loop
    steps. *)

From Stdlib Require Import ZArith Lia Bool Ascii List.
From stdpp Require Import base list.
Import ListNotations.

Local Open Scope Z_scope.

(** ** Fixed-width unsigned integers

    [uint8_t], [uint16_t] and [uint32_t] values are integers; a conversion
    to the type reduces modulo the width. *)

Definition to_uint8 (v : Z) : Z := v mod 2 ^ 8.
Definition to_uint16 (v : Z) : Z := v mod 2 ^ 16.
Definition to_uint32 (v : Z) : Z := v mod 2 ^ 32.

Definition is_uint16 (v : Z) : bool := (0 <=? v) && (v <? 2 ^ 16).
Definition is_uint32 (v : Z) : bool := (0 <=? v) && (v <? 2 ^ 32).

(** ** Event kinds

    Modelled from the spec: the enumeration [TimerEventType] is declared in
    the library's timer headers, which are not part of this file.  It is the
    event-kind tag that identifies which channel or condition fired; the
    handler compares it with [EVENT_COMPARE3] only. *)

Inductive TimerEventType : Type :=
| EVENT_UPDATE
| EVENT_COMPARE1
| EVENT_COMPARE2
| EVENT_COMPARE3
| EVENT_COMPARE4
| EVENT_COM
| EVENT_TRIGGER
| EVENT_BREAK.

Definition TimerEventType_eqb (a b : TimerEventType) : bool :=
  match a, b with
  | EVENT_UPDATE, EVENT_UPDATE
  | EVENT_COMPARE1, EVENT_COMPARE1
  | EVENT_COMPARE2, EVENT_COMPARE2
  | EVENT_COMPARE3, EVENT_COMPARE3
  | EVENT_COMPARE4, EVENT_COMPARE4
  | EVENT_COM, EVENT_COM
  | EVENT_TRIGGER, EVENT_TRIGGER
  | EVENT_BREAK, EVENT_BREAK => true
  | _, _ => false
  end.

(** ** The state variables of [TimerInputCaptureTest]

    [volatile uint16_t _captures[2]], [volatile uint8_t _captureIndex],
    [volatile uint32_t _capturedFrequency] and
    [volatile bool _capturingNextFrequency]. *)

Record TimerInputCaptureTest : Type := mkTest {
  _captures : list Z;
  _captureIndex : Z;
  _capturedFrequency : Z;
  _capturingNextFrequency : bool
}.

(** The members hold values of their declared types. *)
Definition well_formed (o : TimerInputCaptureTest) : bool :=
  (length (_captures o) =? 2)%nat
  && forallb is_uint16 (_captures o)
  && (0 <=? _captureIndex o) && (_captureIndex o <? 2 ^ 8)
  && is_uint32 (_capturedFrequency o).

(** A store to one of the volatile members, in program order.  A store to
    the flag records the value it replaces. *)
Inductive Store : Type :=
| St_captures (index value : Z)
| St_captureIndex (value : Z)
| St_capturedFrequency (value : Z)
| St_capturingNextFrequency (previous value : bool).

Record Machine : Type := mkMachine {
  object : TimerInputCaptureTest;
  stores : list Store
}.

(** ** Computations

    A computation takes the machine to a result and a new machine, or has
    undefined behaviour (an access outside an array, a division by zero). *)

Inductive Outcome (A : Type) : Type :=
| Returns (a : A) (m : Machine)
| UndefinedBehaviour.

Arguments Returns {A} a m.
Arguments UndefinedBehaviour {A}.

Definition M (A : Type) : Type := Machine -> Outcome A.

Definition ret {A : Type} (a : A) : M A := fun m => Returns a m.

Definition bind {A B : Type} (c : M A) (k : A -> M B) : M B :=
  fun m =>
    match c m with
    | Returns a m' => k a m'
    | UndefinedBehaviour => UndefinedBehaviour
    end.

Definition undefined {A : Type} : M A := fun _ => UndefinedBehaviour.

Notation "'let*' x ':=' c 'in' k" := (bind c (fun x => k))
  (at level 10, x name, c at level 100, k at level 200).
Notation "c ;; k" := (bind c (fun _ => k))
  (at level 100, k at level 200, right associativity).

Definition load {A : Type} (field : TimerInputCaptureTest -> A) : M A :=
  fun m => Returns (field (object m)) m.

Definition store (update : TimerInputCaptureTest -> TimerInputCaptureTest)
    (record : TimerInputCaptureTest -> Store) : M unit :=
  fun m =>
    Returns tt (mkMachine (update (object m))
                          (stores m ++ [record (object m)])).

Definition in_bounds (i : Z) : bool := (0 <=? i) && (i <? 2).

(** [_captures[i]], read. *)
Definition load_captures (i : Z) : M Z :=
  if in_bounds i then
    fun m =>
      match _captures (object m) !! Z.to_nat i with
      | Some v => Returns v m
      | None => UndefinedBehaviour
      end
  else undefined.

(** [_captures[i] = v]: the value is converted to [uint16_t]. *)
Definition store_captures (i v : Z) : M unit :=
  if in_bounds i then
    store (fun o => mkTest (<[Z.to_nat i := to_uint16 v]> (_captures o))
                           (_captureIndex o) (_capturedFrequency o)
                           (_capturingNextFrequency o))
          (fun _ => St_captures i (to_uint16 v))
  else undefined.

(** [_captureIndex = v]. *)
Definition store_captureIndex (v : Z) : M unit :=
  store (fun o => mkTest (_captures o) (to_uint8 v) (_capturedFrequency o)
                         (_capturingNextFrequency o))
        (fun _ => St_captureIndex (to_uint8 v)).

(** [_captureIndex++]: the value of the expression is the old index. *)
Definition post_increment_captureIndex : M Z :=
  let* old := load _captureIndex in
  store_captureIndex (old + 1) ;;
  ret old.

(** [_capturedFrequency = v]. *)
Definition store_capturedFrequency (v : Z) : M unit :=
  store (fun o => mkTest (_captures o) (_captureIndex o) (to_uint32 v)
                         (_capturingNextFrequency o))
        (fun _ => St_capturedFrequency (to_uint32 v)).

(** [_capturingNextFrequency = b]. *)
Definition store_capturingNextFrequency (b : bool) : M unit :=
  store (fun o => mkTest (_captures o) (_captureIndex o)
                         (_capturedFrequency o) b)
        (fun o => St_capturingNextFrequency (_capturingNextFrequency o) b).

(** Unsigned division; dividing by zero is undefined. *)
Definition divide (a b : Z) : M Z :=
  if b =? 0 then undefined else ret (a / b).

Arguments to_uint8 : simpl never.
Arguments to_uint16 : simpl never.
Arguments to_uint32 : simpl never.

(** ** The input timer

    [_myInputTimer] points to the input timer.  Its counter runs at [clock]
    ticks per second.  [INVALID_MEASUREMENT] is the value that reports a
    measurement as invalid. *)

Section InputTimer.

Variable clock : Z.
Variable INVALID_MEASUREMENT : Z.

(** The largest value of the 16-bit counter. *)
Definition COUNTER_MAX : Z := 65535.

(** Modelled from the spec: the tick count between two captures [a] and
    then [b] of a counter that counts up to [counterMax] and wraps to zero,
    [(b - a) mod (counterMax + 1)]. *)
Definition elapsed (counterMax a b : Z) : Z := (b - a) mod (counterMax + 1).

(** Modelled from the spec: [calculateFrequency] is a member of the
    library's timer class, which is not part of this file.  The elapsed tick
    count is [(capture2 - capture1) mod (COUNTER_MAX + 1)]; when it is zero
    the result is the invalid-measurement value and nothing is divided,
    otherwise it is the tick rate divided by the elapsed count (integer
    division). *)
Definition calculateFrequency (capture1 capture2 : Z) : M Z :=
  let ticks := elapsed COUNTER_MAX capture1 capture2 in
  if ticks =? 0 then ret INVALID_MEASUREMENT
  else divide clock ticks.

(** Modelled from the spec: the value of [calculateFrequency], written
    without the monad. *)
Definition measurement (capture1 capture2 : Z) : Z :=
  if elapsed COUNTER_MAX capture1 capture2 =? 0 then INVALID_MEASUREMENT
  else clock / elapsed COUNTER_MAX capture1 capture2.

(** ** The interrupt handler

    [onInterrupt tet timerNumber capture]: [capture] is the value that
    [_myInputTimer->getCapture()] returns during this call, the content of
    the timer's capture register. *)
Definition onInterrupt (tet : TimerEventType) (timerNumber : Z)
    (capture : Z) : M unit :=
  if TimerEventType_eqb tet EVENT_COMPARE3 then
    let* index := load _captureIndex in
    store_captures index capture ;;
    let* previous := post_increment_captureIndex in
    if previous =? 1 then
      let* ready := load _capturingNextFrequency in
      (if ready : bool then
         let* first := load_captures 0 in
         let* second := load_captures 1 in
         let* frequency := calculateFrequency first second in
         store_capturedFrequency frequency ;;
         store_capturingNextFrequency false
       else ret tt) ;;
      store_captureIndex 0
    else ret tt
  else ret tt.

(** The handler run from a machine with no stores recorded yet. *)
Definition handle (tet : TimerEventType) (timerNumber capture : Z)
    (o : TimerInputCaptureTest) : Outcome unit :=
  onInterrupt tet timerNumber capture (mkMachine o []).

(** ** Writing the frequency

    Modelled from the spec: [StringUtil::modp_uitoa10] is a library function,
    not part of this file.  It writes the decimal digits of an unsigned
    integer, most significant first, without leading zeros (a single [0]
    for zero).  A [uint32_t] has at most ten digits. *)

Definition digit (d : Z) : ascii := ascii_of_nat (48 + Z.to_nat d).

Fixpoint uitoa10_digits (n : nat) (value : Z) (tail : list ascii)
    : list ascii :=
  match n with
  | O => tail
  | S n' =>
      let tail' := digit (value mod 10) :: tail in
      if value / 10 =? 0 then tail' else uitoa10_digits n' (value / 10) tail'
  end.

Definition modp_uitoa10 (value : Z) : list ascii :=
  uitoa10_digits 10 value [].

(** The literal ["Hz\r\n"]. *)
Definition Hz_CRLF : list ascii :=
  ["H"; "z"; ascii_of_nat 13; ascii_of_nat 10]%char.

(** The two stream insertions of [outputStream << buf << "Hz\r\n"]. *)
Definition frame (frequency : Z) : list ascii :=
  modp_uitoa10 frequency ++ Hz_CRLF.

(** The number that a string of decimal digits denotes. *)
Definition digit_value (c : ascii) : Z := Z.of_nat (nat_of_ascii c) - 48.

Definition is_digit (c : ascii) : bool :=
  (0 <=? digit_value c) && (digit_value c <=? 9).

Definition decimal_value (text : list ascii) : Z :=
  fold_left (fun acc c => 10 * acc + digit_value c) text 0.

(** ** The main loop and the interrupt together

    [run] initialises the state, enables the interrupt and loops.  The loop
    is at one of four points; an interrupt can be served between any two
    steps of the loop and runs to completion. *)

Inductive ProgramPoint : Type :=
| AwaitingCapture    (* while(_capturingNextFrequency); *)
| WritingFrequency   (* modp_uitoa10(...); outputStream << buf << "Hz\r\n"; *)
| Pausing            (* MillisecondTimer::delay(3000); *)
| Rearming.          (* _capturingNextFrequency=true; *)

Inductive ExecutionContext : Type := MainLoop | CaptureInterrupt.

Record System : Type := mkSystem {
  test : TimerInputCaptureTest;
  pc : ProgramPoint;
  usart : list ascii;
  history : list (ExecutionContext * Store)
}.

(** Run a computation on the object in one context and append its stores,
    tagged with the context, to the history. *)
Definition perform (who : ExecutionContext) (c : M unit) (s : System)
    : option System :=
  match c (mkMachine (test s) []) with
  | Returns _ m =>
      Some (mkSystem (object m) (pc s) (usart s)
                     (history s ++ map (pair who) (stores m)))
  | UndefinedBehaviour => None
  end.

Definition goto (p : ProgramPoint) (s : System) : System :=
  mkSystem (test s) p (usart s) (history s).

Definition send (text : list ascii) (s : System) : System :=
  mkSystem (test s) (pc s) (usart s ++ text) (history s).

(** [_captureIndex=0; _capturingNextFrequency=true;] before the interrupt
    is enabled; the other members start with whatever they hold. *)
Definition initialise (o : TimerInputCaptureTest) : TimerInputCaptureTest :=
  mkTest (_captures o) 0 (_capturedFrequency o) true.

Definition boot (o : TimerInputCaptureTest) : System :=
  mkSystem (initialise o) AwaitingCapture [] [].

(** One step of the body of [for(;;)]. *)
Definition run_step (s : System) : option System :=
  match pc s with
  | AwaitingCapture =>
      if _capturingNextFrequency (test s) then Some s
      else Some (goto WritingFrequency s)
  | WritingFrequency =>
      Some (goto Pausing (send (frame (_capturedFrequency (test s))) s))
  | Pausing => Some (goto Rearming s)
  | Rearming =>
      option_map (goto AwaitingCapture)
        (perform MainLoop (store_capturingNextFrequency true) s)
  end.

Inductive Action : Type :=
| Interrupt (tet : TimerEventType) (timerNumber capture : Z)
| MainStep.

Definition step (a : Action) (s : System) : option System :=
  match a with
  | Interrupt tet timerNumber capture =>
      perform CaptureInterrupt (onInterrupt tet timerNumber capture) s
  | MainStep => run_step s
  end.

Fixpoint execute (schedule : list Action) (s : System) : option System :=
  match schedule with
  | [] => Some s
  | a :: rest =>
      match step a s with
      | Some s' => execute rest s'
      | None => None
      end
  end.

(** ** Observations used in the properties *)

(** Which store each context may perform: the main loop stores nothing but
    [true] over a [false] flag; the handler stores to the flag nothing but
    [false] over [true]. *)
Definition disciplined (e : ExecutionContext * Store) : bool :=
  match e with
  | (MainLoop, St_capturingNextFrequency previous value) =>
      negb previous && value
  | (MainLoop, _) => false
  | (CaptureInterrupt, St_capturingNextFrequency previous value) =>
      previous && negb value
  | (CaptureInterrupt, _) => true
  end.

(** What the rest of the program can see of a system, the captured values
    apart. *)
Definition observable (s : System)
    : Z * Z * bool * ProgramPoint * list ascii :=
  (_captureIndex (test s), _capturedFrequency (test s),
   _capturingNextFrequency (test s), pc s, usart s).

(** Two systems that differ at most in captured values that will be
    overwritten before they are read. *)
Definition similar (s t : System) : Prop :=
  observable s = observable t
  /\ length (_captures (test s)) = 2%nat
  /\ length (_captures (test t)) = 2%nat
  /\ (_captureIndex (test s) = 0
      \/ _captureIndex (test s) = 1
         /\ _captures (test s) !! 0%nat = _captures (test t) !! 0%nat).

(** What holds of every system reached from [boot]. *)
Definition invariant (s : System) : Prop :=
  length (_captures (test s)) = 2%nat
  /\ (_captureIndex (test s) = 0 \/ _captureIndex (test s) = 1)
  /\ is_uint32 (_capturedFrequency (test s)) = true
  /\ (pc s <> AwaitingCapture -> _capturingNextFrequency (test s) = false)
  /\ forallb disciplined (history s) = true
  /\ exists fs : list Z,
       forallb is_uint32 fs = true /\ usart s = concat (map frame fs).

(** ** Observations on schedules and histories *)

(** A step that the program reacts to: a step of the main loop or a
    channel-3 capture interrupt. *)
Definition is_relevant (a : Action) : bool :=
  match a with
  | Interrupt tet _ _ => TimerEventType_eqb tet EVENT_COMPARE3
  | MainStep => true
  end.

(** The capture values of the channel-3 interrupts of a schedule, in
    order, as the handler stores them. *)
Fixpoint captured (schedule : list Action) : list Z :=
  match schedule with
  | [] => []
  | Interrupt tet _ capture :: rest =>
      if TimerEventType_eqb tet EVENT_COMPARE3
      then to_uint16 capture :: captured rest
      else captured rest
  | MainStep :: rest => captured rest
  end.

(** The first and second, third and fourth, ... of a list of values. *)
Fixpoint pair_up (values : list Z) : list (Z * Z) :=
  match values with
  | a :: b :: rest => (a, b) :: pair_up rest
  | _ => []
  end.

(** The values stored to [_capturedFrequency], in order. *)
Fixpoint published (h : list (ExecutionContext * Store)) : list Z :=
  match h with
  | [] => []
  | (_, St_capturedFrequency v) :: rest => v :: published rest
  | _ :: rest => published rest
  end.

(** The channel-3 interrupts of a schedule run from [s], in order: the
    capture value as stored, and the flag as the interrupt finds it. *)
Fixpoint observed (schedule : list Action) (s : System) : list (Z * bool) :=
  match schedule with
  | [] => []
  | a :: rest =>
      match step a s with
      | Some s' =>
          match a with
          | Interrupt tet _ capture =>
              if TimerEventType_eqb tet EVENT_COMPARE3
              then (to_uint16 capture, _capturingNextFrequency (test s))
                   :: observed rest s'
              else observed rest s'
          | MainStep => observed rest s'
          end
      | None => []
      end
  end.

(** The first and second, third and fourth, ... of the observed captures,
    keeping the pairs whose second capture found the flag set. *)
Fixpoint armed_pairs (captures : list (Z * bool)) : list (Z * Z) :=
  match captures with
  | (a, _) :: (b, ready) :: rest =>
      (if ready then [(a, b)] else []) ++ armed_pairs rest
  | _ => []
  end.

(** What the handler stores to [_capturedFrequency] for a pair. *)
Definition pair_frequency (p : Z * Z) : Z :=
  to_uint32 (measurement (fst p) (snd p)).

(** A schedule of interrupts alone: the main loop does not run. *)
Definition interrupts (n : Z) (events : list (TimerEventType * Z))
    : list Action :=
  map (fun e => Interrupt (fst e) n (snd e)) events.

(** Two channel-3 captures followed by one pass of the main loop: leave
    the wait, write the frequency, pause, re-arm. *)
Definition measurement_cycle (n : Z) (p : Z * Z) : list Action :=
  [Interrupt EVENT_COMPARE3 n (fst p); Interrupt EVENT_COMPARE3 n (snd p);
   MainStep; MainStep; MainStep; MainStep].

(** The output and the published values agree: everything published has
    been written, except a value published since the loop last waited. *)
Definition handed_over (s : System) (fs : list Z) : Prop :=
  usart s = concat (map frame fs)
  /\ published (history s) =
     match pc s, _capturingNextFrequency (test s) with
     | AwaitingCapture, false | WritingFrequency, _ =>
         fs ++ [_capturedFrequency (test s)]
     | _, _ => fs
     end.

(** * Properties *)

(** ** The handler, case by case *)

Lemma TimerEventType_eqb_eq (a b : TimerEventType) :
  TimerEventType_eqb a b = true <-> a = b.
Proof. destruct a, b; simpl; split; congruence. Qed.

Lemma handle_other_event (tet : TimerEventType) (n capture : Z)
    (o : TimerInputCaptureTest) :
  tet <> EVENT_COMPARE3 ->
  handle tet n capture o = Returns tt (mkMachine o []).
Proof.
  intros Htet. unfold handle, onInterrupt.
  destruct (TimerEventType_eqb tet EVENT_COMPARE3) eqn:E; [|reflexivity].
  apply TimerEventType_eqb_eq in E. contradiction.
Qed.

Lemma handle_first_capture (n capture : Z) (cs : list Z) (f : Z) (b : bool) :
  handle EVENT_COMPARE3 n capture (mkTest cs 0 f b) =
  Returns tt
    (mkMachine (mkTest (<[0%nat := to_uint16 capture]> cs) 1 f b)
               [St_captures 0 (to_uint16 capture); St_captureIndex 1]).
Proof. reflexivity. Qed.

Lemma handle_second_capture_idle (n capture : Z) (cs : list Z) (f : Z) :
  handle EVENT_COMPARE3 n capture (mkTest cs 1 f false) =
  Returns tt
    (mkMachine (mkTest (<[1%nat := to_uint16 capture]> cs) 0 f false)
               [St_captures 1 (to_uint16 capture); St_captureIndex 2;
                St_captureIndex 0]).
Proof. reflexivity. Qed.

Lemma calculateFrequency_returns (capture1 capture2 : Z) (m : Machine) :
  calculateFrequency capture1 capture2 m =
  Returns (measurement capture1 capture2) m.
Proof.
  unfold calculateFrequency, measurement, divide.
  destruct (elapsed COUNTER_MAX capture1 capture2 =? 0); reflexivity.
Qed.

Lemma handle_second_capture_ready (n capture first second f : Z) :
  handle EVENT_COMPARE3 n capture (mkTest [first; second] 1 f true) =
  let published := to_uint32 (measurement first (to_uint16 capture)) in
  Returns tt
    (mkMachine (mkTest [first; to_uint16 capture] 0 published false)
               [St_captures 1 (to_uint16 capture); St_captureIndex 2;
                St_capturedFrequency published;
                St_capturingNextFrequency true false; St_captureIndex 0]).
Proof.
  unfold handle, onInterrupt.
  lazy -[calculateFrequency measurement to_uint16 to_uint32].
  rewrite calculateFrequency_returns. reflexivity.
Qed.

(** ** Arithmetic of the fixed-width types *)

Lemma is_uint32_iff (v : Z) : is_uint32 v = true <-> 0 <= v < 2 ^ 32.
Proof. unfold is_uint32. rewrite andb_true_iff. lia. Qed.

Lemma is_uint16_iff (v : Z) : is_uint16 v = true <-> 0 <= v < 2 ^ 16.
Proof. unfold is_uint16. rewrite andb_true_iff. lia. Qed.

Lemma to_uint32_fits (v : Z) : is_uint32 (to_uint32 v) = true.
Proof.
  apply is_uint32_iff. unfold to_uint32. apply Z.mod_pos_bound. lia.
Qed.

Lemma to_uint16_fits (v : Z) : is_uint16 (to_uint16 v) = true.
Proof.
  apply is_uint16_iff. unfold to_uint16. apply Z.mod_pos_bound. lia.
Qed.

Lemma to_uint32_small (v : Z) : is_uint32 v = true -> to_uint32 v = v.
Proof.
  intros H. apply is_uint32_iff in H. unfold to_uint32.
  apply Z.mod_small. exact H.
Qed.

Lemma elapsed_range (a b : Z) : 0 <= elapsed COUNTER_MAX a b < 2 ^ 16.
Proof. unfold elapsed, COUNTER_MAX. apply Z.mod_pos_bound. lia. Qed.

Lemma quotient_fits (e : Z) :
  is_uint32 clock = true -> 0 < e -> is_uint32 (clock / e) = true.
Proof.
  intros Hc He. apply is_uint32_iff in Hc. apply is_uint32_iff. split.
  - apply Z.div_pos; lia.
  - assert (clock / e <= clock); [|lia].
    apply Z.div_le_upper_bound; nia.
Qed.

(** ** The claims about one call of the handler *)

(** C1.  When a pair is completed while the main loop is waiting and the
    two captures are the same tick (elapsed count zero), the handler
    returns without undefined behaviour, publishes the invalid-measurement
    value in place of a quotient and clears the flag; the frequency
    calculation never divides by zero, whatever its arguments. *)
Theorem zero_elapsed_publishes_invalid_measurement
    (n capture first second f : Z) :
  is_uint32 INVALID_MEASUREMENT = true ->
  elapsed COUNTER_MAX first (to_uint16 capture) = 0 ->
  handle EVENT_COMPARE3 n capture (mkTest [first; second] 1 f true) =
    Returns tt
      (mkMachine
         (mkTest [first; to_uint16 capture] 0 INVALID_MEASUREMENT false)
         [St_captures 1 (to_uint16 capture); St_captureIndex 2;
          St_capturedFrequency INVALID_MEASUREMENT;
          St_capturingNextFrequency true false; St_captureIndex 0])
  /\ forall (capture1 capture2 : Z) (m : Machine),
       calculateFrequency capture1 capture2 m <> UndefinedBehaviour.
Proof.
  intros Hinv Hzero. split.
  - rewrite handle_second_capture_ready. cbv zeta.
    unfold measurement. rewrite Hzero. change (0 =? 0) with true. cbv iota.
    rewrite (to_uint32_small _ Hinv). reflexivity.
  - intros capture1 capture2 m. rewrite calculateFrequency_returns.
    discriminate.
Qed.

(** C2.  When a pair is completed while the main loop is waiting and the
    elapsed count is not zero, the handler stores the tick rate divided by
    the elapsed count (integer division) in [_capturedFrequency] and after
    that stores [false] over the [true] flag. *)
Theorem nonzero_elapsed_publishes_quotient_then_clears_flag
    (n capture first second f : Z) :
  is_uint32 clock = true ->
  elapsed COUNTER_MAX first (to_uint16 capture) <> 0 ->
  handle EVENT_COMPARE3 n capture (mkTest [first; second] 1 f true) =
    let frequency := clock / elapsed COUNTER_MAX first (to_uint16 capture) in
    Returns tt
      (mkMachine
         (mkTest [first; to_uint16 capture] 0 frequency false)
         [St_captures 1 (to_uint16 capture); St_captureIndex 2;
          St_capturedFrequency frequency;
          St_capturingNextFrequency true false; St_captureIndex 0]).
Proof.
  intros Hclock Hticks.
  rewrite handle_second_capture_ready. cbv zeta.
  unfold measurement.
  destruct (Z.eqb_spec (elapsed COUNTER_MAX first (to_uint16 capture)) 0)
    as [E|_]; [contradiction|].
  rewrite to_uint32_small; [reflexivity|].
  apply quotient_fits; [exact Hclock|].
  pose proof (elapsed_range first (to_uint16 capture)). lia.
Qed.

(** C3.  For a counter of width [W] and captures [a] then [b] in
    [0 .. 2^W - 1], the elapsed count [(b - a) mod 2^W] is [b - a] when the
    counter did not wrap and [2^W - a + b] when it did; it lies in
    [0 .. 2^W - 1], that many ticks take the counter from [a] to [b], and it
    is the only such number of ticks [d < 2^W]; the program uses the
    instance [W = 16]. *)
Theorem elapsed_is_tick_distance (W a b : Z) :
  0 <= W -> 0 <= a < 2 ^ W -> 0 <= b < 2 ^ W ->
  elapsed (2 ^ W - 1) a b = (if a <=? b then b - a else 2 ^ W - a + b)
  /\ 0 <= elapsed (2 ^ W - 1) a b < 2 ^ W
  /\ (a + elapsed (2 ^ W - 1) a b) mod 2 ^ W = b
  /\ (forall d : Z,
        0 <= d < 2 ^ W -> b = (a + d) mod 2 ^ W ->
        elapsed (2 ^ W - 1) a b = d)
  /\ elapsed COUNTER_MAX a b = elapsed (2 ^ 16 - 1) a b.
Proof.
  intros HW Ha Hb. unfold elapsed.
  replace (2 ^ W - 1 + 1) with (2 ^ W) by lia.
  split; [|split; [|split; [|split]]].
  - destruct (Z.leb_spec a b).
    + apply Z.mod_small. lia.
    + symmetry. apply (Z.mod_unique (b - a) (2 ^ W) (-1)); lia.
  - apply Z.mod_pos_bound. lia.
  - rewrite Zplus_mod_idemp_r. replace (a + (b - a)) with b by lia.
    apply Z.mod_small. exact Hb.
  - intros d Hd ->. rewrite Zminus_mod_idemp_l.
    replace (a + d - a) with d by lia. apply Z.mod_small. exact Hd.
  - reflexivity.
Qed.

(** C7.  An event of any kind other than the channel-3 compare event
    leaves the captures, the index, the flag and the published frequency as
    they were and stores nothing. *)
Theorem other_events_change_nothing
    (tet : TimerEventType) (n capture : Z) (o : TimerInputCaptureTest) :
  tet <> EVENT_COMPARE3 ->
  handle tet n capture o = Returns tt (mkMachine o []).
Proof. apply handle_other_event. Qed.

(** ** Executions *)

Lemma step_interrupt (tet : TimerEventType) (n capture : Z) (s : System) :
  step (Interrupt tet n capture) s =
  match handle tet n capture (test s) with
  | Returns _ m =>
      Some (mkSystem (object m) (pc s) (usart s)
                     (history s ++ map (pair CaptureInterrupt) (stores m)))
  | UndefinedBehaviour => None
  end.
Proof. reflexivity. Qed.

Lemma not_compare3 (tet : TimerEventType) :
  TimerEventType_eqb tet EVENT_COMPARE3 = false -> tet <> EVENT_COMPARE3.
Proof. intros E ->. discriminate. Qed.

Lemma boot_invariant (o : TimerInputCaptureTest) :
  well_formed o = true -> invariant (boot o).
Proof.
  unfold well_formed. rewrite !andb_true_iff.
  intros [[[[Hlen _] _] _] Hf]. apply Nat.eqb_eq in Hlen.
  unfold invariant, boot. simpl. repeat split; try assumption.
  - left; reflexivity.
  - intros H; contradiction.
  - exists []. split; reflexivity.
Qed.

Lemma step_invariant (a : Action) (s : System) :
  invariant s -> exists s', step a s = Some s' /\ invariant s'.
Proof.
  destruct s as [[cs idx f b] p u h]. unfold invariant. simpl.
  intros (Hlen & Hidx & Hf & Hpc & Hh & fs & Hfs & Hu).
  destruct cs as [|c0 [|c1 [|? ?]]]; try discriminate Hlen.
  destruct a as [tet n capture|].
  - rewrite step_interrupt. simpl test.
    destruct (TimerEventType_eqb tet EVENT_COMPARE3) eqn:E.
    + apply TimerEventType_eqb_eq in E. subst tet.
      destruct Hidx as [-> | ->].
      * rewrite handle_first_capture. eexists. split; [reflexivity|].
        simpl. rewrite forallb_app, Hh. simpl.
        repeat split; auto. exists fs. auto.
      * destruct b.
        -- rewrite handle_second_capture_ready. eexists.
           split; [reflexivity|].
           simpl. rewrite forallb_app, Hh. simpl.
           repeat split; auto using to_uint32_fits. exists fs. auto.
        -- rewrite handle_second_capture_idle. eexists.
           split; [reflexivity|].
           simpl. rewrite forallb_app, Hh. simpl.
           repeat split; auto. exists fs. auto.
    + rewrite (handle_other_event _ _ _ _ (not_compare3 _ E)).
      eexists. split; [reflexivity|].
      simpl. rewrite app_nil_r. repeat split; auto. exists fs. auto.
  - unfold step, run_step. simpl pc. destruct p.
    + destruct b; eexists; (split; [reflexivity|]); simpl;
        repeat split; auto; exists fs; auto.
    + eexists. split; [reflexivity|]. simpl.
      repeat split; auto. exists (fs ++ [f]). split.
      * rewrite forallb_app, Hfs. simpl. rewrite Hf. reflexivity.
      * rewrite map_app, concat_app, Hu. simpl. rewrite app_nil_r.
        reflexivity.
    + eexists. split; [reflexivity|]. simpl.
      repeat split; auto. exists fs. auto.
    + rewrite Hpc in * by discriminate.
      eexists. split; [reflexivity|]. simpl.
      rewrite forallb_app, Hh. simpl.
      repeat split; auto.
      * intros H; contradiction.
      * exists fs. auto.
Qed.

Lemma execute_invariant (schedule : list Action) (s : System) :
  invariant s -> exists s', execute schedule s = Some s' /\ invariant s'.
Proof.
  revert s. induction schedule as [|a rest IH]; intros s Hs.
  - exists s. split; [reflexivity|exact Hs].
  - destruct (step_invariant a s Hs) as (s1 & Hstep & Hs1).
    simpl. rewrite Hstep. apply IH. exact Hs1.
Qed.

Lemma step_similar (a : Action) (s t : System) :
  similar s t ->
  exists s' t', step a s = Some s' /\ step a t = Some t' /\ similar s' t'.
Proof.
  destruct s as [[cs idx f b] p u h], t as [[ct idx' f' b'] p' u' h'].
  unfold similar, observable. simpl.
  intros (Hobs & Hls & Hlt & Hidx).
  injection Hobs as <- <- <- <- <-.
  destruct cs as [|c0 [|c1 [|? ?]]]; try discriminate Hls.
  destruct ct as [|d0 [|d1 [|? ?]]]; try discriminate Hlt.
  destruct a as [tet n capture|].
  - rewrite !step_interrupt. simpl test.
    destruct (TimerEventType_eqb tet EVENT_COMPARE3) eqn:E.
    + apply TimerEventType_eqb_eq in E. subst tet.
      destruct Hidx as [-> | [-> Hfirst]].
      * rewrite !handle_first_capture. do 2 eexists.
        repeat split; simpl; auto.
      * simpl in Hfirst. injection Hfirst as <-. destruct b.
        -- rewrite !handle_second_capture_ready. do 2 eexists.
           repeat split; simpl; auto.
        -- rewrite !handle_second_capture_idle. do 2 eexists.
           repeat split; simpl; auto.
    + rewrite !(handle_other_event _ _ _ _ (not_compare3 _ E)).
      do 2 eexists. repeat split; simpl; auto.
  - unfold step, run_step. simpl pc. destruct p.
    + destruct b; do 2 eexists; repeat split; simpl; auto.
    + do 2 eexists. repeat split; simpl; auto.
    + do 2 eexists. repeat split; simpl; auto.
    + do 2 eexists. repeat split; simpl; auto.
Qed.

Lemma execute_similar (schedule : list Action) (s t : System) :
  similar s t ->
  exists s' t',
    execute schedule s = Some s' /\ execute schedule t = Some t'
    /\ observable s' = observable t'.
Proof.
  revert s t. induction schedule as [|a rest IH]; intros s t Hst.
  - exists s, t. repeat split. apply Hst.
  - destruct (step_similar a s t Hst) as (s1 & t1 & Hs & Ht & H1).
    simpl. rewrite Hs, Ht. apply IH. exact H1.
Qed.

(** ** Decimal digits *)

Lemma uitoa10_digits_tail (n : nat) (value : Z) (tail : list ascii) :
  uitoa10_digits n value tail = uitoa10_digits n value [] ++ tail.
Proof.
  revert value tail. induction n as [|n IH]; intros value tail.
  - reflexivity.
  - simpl. destruct (value / 10 =? 0).
    + reflexivity.
    + rewrite (IH _ (_ :: tail)), (IH _ [_]), <- app_assoc. reflexivity.
Qed.

Lemma uitoa10_digits_S (n : nat) (value : Z) (tail : list ascii) :
  uitoa10_digits (S n) value tail =
  if value / 10 =? 0 then digit (value mod 10) :: tail
  else uitoa10_digits n (value / 10) (digit (value mod 10) :: tail).
Proof. reflexivity. Qed.

Lemma digit_value_digit (d : Z) :
  0 <= d <= 9 -> digit_value (digit d) = d /\ is_digit (digit d) = true.
Proof.
  intros H.
  assert (d = 0 \/ d = 1 \/ d = 2 \/ d = 3 \/ d = 4 \/ d = 5 \/ d = 6
          \/ d = 7 \/ d = 8 \/ d = 9) as Hd by lia.
  repeat (destruct Hd as [-> | Hd]; [split; reflexivity|]).
  subst d. split; reflexivity.
Qed.

Lemma decimal_value_snoc (text : list ascii) (c : ascii) :
  decimal_value (text ++ [c]) = 10 * decimal_value text + digit_value c.
Proof. unfold decimal_value. rewrite fold_left_app. reflexivity. Qed.

Lemma uitoa10_digits_correct (n : nat) (value : Z) :
  0 <= value < 10 ^ Z.of_nat (S n) ->
  decimal_value (uitoa10_digits (S n) value []) = value
  /\ forallb is_digit (uitoa10_digits (S n) value []) = true
  /\ (1 <= length (uitoa10_digits (S n) value []) <= S n)%nat.
Proof.
  revert value. induction n as [|n IH]; intros value Hv.
  - change (10 ^ Z.of_nat 1) with 10 in Hv.
    rewrite uitoa10_digits_S. cbn [uitoa10_digits].
    assert (Hm : value mod 10 = value) by (apply Z.mod_small; lia).
    destruct (digit_value_digit value) as [Hd Hi]; [lia|].
    rewrite Hm.
    destruct (value / 10 =? 0); cbn; unfold decimal_value; cbn [fold_left];
      rewrite Hd, Hi; repeat split; lia.
  - rewrite (uitoa10_digits_S (S n)).
    assert (Hr : 0 <= value mod 10 < 10) by (apply Z.mod_pos_bound; lia).
    destruct (digit_value_digit (value mod 10)) as [Hd Hi]; [lia|].
    pose proof (Z.div_mod value 10 ltac:(lia)) as Hdm.
    destruct (Z.eqb_spec (value / 10) 0) as [Hq|Hq].
    + unfold decimal_value. cbn [fold_left length forallb].
      rewrite Hd, Hi. repeat split; lia.
    + rewrite uitoa10_digits_tail.
      assert (Hv' : 0 <= value / 10 < 10 ^ Z.of_nat (S n)).
      { rewrite (Nat2Z.inj_succ (S n)), Z.pow_succ_r in Hv by lia.
        split; [apply Z.div_pos; lia|].
        apply Z.div_lt_upper_bound; lia. }
      destruct (IH (value / 10) Hv') as (Hval & Hdig & Hlen).
      rewrite decimal_value_snoc, forallb_app, length_app, Hval, Hdig, Hd.
      cbn [forallb length]. rewrite Hi. repeat split; lia.
Qed.

Lemma modp_uitoa10_correct (value : Z) :
  is_uint32 value = true ->
  decimal_value (modp_uitoa10 value) = value
  /\ forallb is_digit (modp_uitoa10 value) = true
  /\ (1 <= length (modp_uitoa10 value) <= 10)%nat.
Proof.
  intros H. apply is_uint32_iff in H.
  apply (uitoa10_digits_correct 9). change (10 ^ Z.of_nat 10) with 10000000000.
  lia.
Qed.

(** ** The claims about executions *)

(** C4.  A pair completed while the flag is clear publishes nothing: the
    handler returns, [_capturedFrequency] keeps its value, the flag stays
    clear, nothing is sent, and the only stores are to the second slot and
    to the index.  The pair is not kept for later: had any other pair been
    dropped in its place, whatever the main loop and later interrupts do
    afterwards leads to the same index, published frequency, flag, program
    point and output. *)
Theorem idle_pair_is_dropped
    (n capture first second f : Z) (p : ProgramPoint) (u : list ascii)
    (h : list (ExecutionContext * Store)) :
  exists s' : System,
    step (Interrupt EVENT_COMPARE3 n capture)
         (mkSystem (mkTest [first; second] 1 f false) p u h) = Some s'
    /\ _capturedFrequency (test s') = f
    /\ _capturingNextFrequency (test s') = false
    /\ _captureIndex (test s') = 0
    /\ usart s' = u
    /\ history s' =
         h ++ [(CaptureInterrupt, St_captures 1 (to_uint16 capture));
               (CaptureInterrupt, St_captureIndex 2);
               (CaptureInterrupt, St_captureIndex 0)]
    /\ forall (first' second' capture' : Z) (rest : list Action),
       exists t' s'' t'' : System,
         step (Interrupt EVENT_COMPARE3 n capture')
              (mkSystem (mkTest [first'; second'] 1 f false) p u h) = Some t'
         /\ execute rest s' = Some s''
         /\ execute rest t' = Some t''
         /\ observable s'' = observable t''.
Proof.
  assert (Hstep : forall x y z : Z,
    step (Interrupt EVENT_COMPARE3 n z)
         (mkSystem (mkTest [x; y] 1 f false) p u h) =
    Some (mkSystem (mkTest [x; to_uint16 z] 0 f false) p u
            (h ++ [(CaptureInterrupt, St_captures 1 (to_uint16 z));
                   (CaptureInterrupt, St_captureIndex 2);
                   (CaptureInterrupt, St_captureIndex 0)]))).
  { intros x y z. rewrite step_interrupt. simpl test.
    rewrite handle_second_capture_idle. reflexivity. }
  eexists. split; [apply Hstep|].
  repeat (split; [reflexivity|]).
  intros first' second' capture' rest.
  rewrite Hstep.
  edestruct (execute_similar rest) as (s2 & t2 & Hs & Ht & Hobs).
  2: { eexists. exists s2, t2.
       split; [reflexivity|]. split; [exact Hs|]. split; [exact Ht|].
       exact Hobs. }
  unfold similar, observable. simpl. repeat split. left. reflexivity.
Qed.

(** C5.  In every execution from the initial state the index is 0 or 1
    after every step (and no step has undefined behaviour).  A channel-3
    capture taken with the index at 1 returns with the index at 0 whether
    the flag is set or not; one taken with the index at 0 stores the
    capture in the first slot, sets the index to 1 and publishes nothing. *)
Theorem captureIndex_alternates
    (o : TimerInputCaptureTest) (schedule : list Action) :
  well_formed o = true ->
  (exists s : System,
     execute schedule (boot o) = Some s
     /\ (_captureIndex (test s) = 0 \/ _captureIndex (test s) = 1))
  /\ (forall (n capture first second f : Z) (b : bool),
       exists m : Machine,
         handle EVENT_COMPARE3 n capture (mkTest [first; second] 1 f b)
           = Returns tt m
         /\ _captureIndex (object m) = 0)
  /\ (forall (n capture : Z) (cs : list Z) (f : Z) (b : bool),
       handle EVENT_COMPARE3 n capture (mkTest cs 0 f b) =
       Returns tt
         (mkMachine (mkTest (<[0%nat := to_uint16 capture]> cs) 1 f b)
                    [St_captures 0 (to_uint16 capture); St_captureIndex 1])).
Proof.
  intros Hwf. split; [|split].
  - destruct (execute_invariant schedule (boot o) (boot_invariant o Hwf))
      as (s & Hs & Hinv).
    exists s. split; [exact Hs|]. apply Hinv.
  - intros n capture first second f [|].
    + rewrite handle_second_capture_ready. eexists. split; reflexivity.
    + rewrite handle_second_capture_idle. eexists. split; reflexivity.
  - intros. apply handle_first_capture.
Qed.

(** C6.  In every execution from the initial state, every store the main
    loop performs to the state variables is a store of [true] over a clear
    flag, and every store the handler performs to the flag is a store of
    [false] over a set flag. *)
Theorem flag_has_one_writer_per_direction
    (o : TimerInputCaptureTest) (schedule : list Action) :
  well_formed o = true ->
  exists s : System,
    execute schedule (boot o) = Some s
    /\ forallb disciplined (history s) = true.
Proof.
  intros Hwf.
  destruct (execute_invariant schedule (boot o) (boot_invariant o Hwf))
    as (s & Hs & Hinv).
  exists s. split; [exact Hs|]. apply Hinv.
Qed.

(** C10.  The counter is 16 bits wide: [COUNTER_MAX] is [2^16 - 1 = 65535];
    a channel-3 capture stores the capture value reduced modulo [2^16] in
    the slot the index selects, whatever the width of the value read; and
    the elapsed count of two stored captures is the difference of the values
    read, modulo [2^16]. *)
Theorem captures_are_16_bit
    (n capture first second index f : Z) (b : bool) :
  index = 0 \/ index = 1 ->
  COUNTER_MAX = 65535
  /\ COUNTER_MAX + 1 = 2 ^ 16
  /\ (exists m : Machine,
        handle EVENT_COMPARE3 n capture (mkTest [first; second] index f b)
          = Returns tt m
        /\ _captures (object m) !! Z.to_nat index = Some (capture mod 2 ^ 16)
        /\ 0 <= capture mod 2 ^ 16 <= COUNTER_MAX
        /\ In (St_captures index (capture mod 2 ^ 16)) (stores m))
  /\ (forall x y : Z,
        elapsed COUNTER_MAX (to_uint16 x) (to_uint16 y) = (y - x) mod 2 ^ 16).
Proof.
  intros Hidx. split; [reflexivity|]. split; [reflexivity|]. split.
  - assert (Hr : 0 <= capture mod 2 ^ 16 <= COUNTER_MAX).
    { pose proof (Z.mod_pos_bound capture (2 ^ 16) ltac:(lia)).
      unfold COUNTER_MAX. lia. }
    destruct Hidx as [-> | ->].
    + rewrite handle_first_capture. eexists. split; [reflexivity|].
      repeat split; try apply Hr. left. reflexivity.
    + destruct b.
      * rewrite handle_second_capture_ready. eexists. split; [reflexivity|].
        repeat split; try apply Hr. left. reflexivity.
      * rewrite handle_second_capture_idle. eexists. split; [reflexivity|].
        repeat split; try apply Hr. left. reflexivity.
  - intros x y. unfold elapsed, COUNTER_MAX, to_uint16.
    change (65535 + 1) with (2 ^ 16). symmetry. apply Zminus_mod.
Qed.

(** ** Further properties of the handler *)

Lemma handle_out_of_bounds (n capture : Z) (cs : list Z) (idx f : Z)
    (b : bool) :
  in_bounds idx = false ->
  handle EVENT_COMPARE3 n capture (mkTest cs idx f b) = UndefinedBehaviour.
Proof.
  intros E. unfold handle, onInterrupt. cbn [TimerEventType_eqb].
  unfold bind at 1. unfold load at 1. cbn [object _captureIndex].
  unfold bind at 1. unfold store_captures. rewrite E. reflexivity.
Qed.

Lemma in_bounds_iff (i : Z) : in_bounds i = true <-> i = 0 \/ i = 1.
Proof. unfold in_bounds. rewrite andb_true_iff. lia. Qed.

(** X1.  With its two capture slots, the handler serves a channel-3
    capture without undefined behaviour exactly when [_captureIndex] is 0
    or 1; with any other index the store to [_captures] is out of bounds. *)
Theorem handler_defined_iff_index_in_bounds
    (n capture : Z) (o : TimerInputCaptureTest) :
  length (_captures o) = 2%nat ->
  handle EVENT_COMPARE3 n capture o <> UndefinedBehaviour
  <-> (_captureIndex o = 0 \/ _captureIndex o = 1).
Proof.
  destruct o as [cs idx f b]. simpl. intros Hlen.
  destruct cs as [|c0 [|c1 [|? ?]]]; try discriminate Hlen.
  split.
  - intros H. apply in_bounds_iff.
    destruct (in_bounds idx) eqn:E; [reflexivity|].
    exfalso. apply H. apply handle_out_of_bounds. exact E.
  - intros [-> | ->].
    + rewrite handle_first_capture. discriminate.
    + destruct b.
      * rewrite handle_second_capture_ready. discriminate.
      * rewrite handle_second_capture_idle. discriminate.
Qed.

(** ** Further properties of executions *)

Lemma step_irrelevant (a : Action) (s : System) :
  is_relevant a = false -> step a s = Some s.
Proof.
  destruct a as [tet n capture|]; [|discriminate]. simpl is_relevant.
  intros E. rewrite step_interrupt.
  rewrite (handle_other_event _ _ _ _ (not_compare3 _ E)).
  destruct s as [o p u h]. simpl. rewrite app_nil_r. reflexivity.
Qed.

(** X3.  Interrupts of kinds other than the channel-3 compare event can be
    removed from any schedule: the execution ends in the same system,
    history and output included, or is undefined in both cases. *)
Theorem other_interrupts_can_be_removed
    (schedule : list Action) (s : System) :
  execute schedule s = execute (List.filter is_relevant schedule) s.
Proof.
  revert s. induction schedule as [|a rest IH]; intros s; [reflexivity|].
  simpl. destruct (is_relevant a) eqn:E.
  - simpl. destruct (step a s); [apply IH|reflexivity].
  - rewrite (step_irrelevant a s E). apply IH.
Qed.

Lemma execute_waiting (schedule : list Action) (s : System) :
  pc s = AwaitingCapture ->
  _capturingNextFrequency (test s) = true ->
  captured schedule = [] ->
  execute schedule s = Some s.
Proof.
  intros Hpc Hflag. induction schedule as [|a rest IH]; [reflexivity|].
  destruct a as [tet n capture|]; simpl.
  - destruct (TimerEventType_eqb tet EVENT_COMPARE3) eqn:E; [discriminate|].
    intros Hrest.
    change (perform CaptureInterrupt (onInterrupt tet n capture) s)
      with (step (Interrupt tet n capture) s).
    rewrite (step_irrelevant (Interrupt tet n capture) s E). auto.
  - intros Hrest. unfold run_step. rewrite Hpc, Hflag. auto.
Qed.

(** X4.  Without a channel-3 capture the main loop stays in its wait: any
    schedule of main-loop steps and interrupts of other kinds leaves the
    system as [run] set it up; nothing is written to the output and no
    state variable is stored to. *)
Theorem no_capture_no_progress
    (o : TimerInputCaptureTest) (schedule : list Action) :
  captured schedule = [] ->
  execute schedule (boot o) = Some (boot o).
Proof. apply execute_waiting; reflexivity. Qed.

(** One step, by cases. *)

Lemma step_first_capture (n capture : Z) (cs : list Z) (f : Z) (b : bool)
    (p : ProgramPoint) (u : list ascii) (h : list (ExecutionContext * Store)) :
  step (Interrupt EVENT_COMPARE3 n capture)
       (mkSystem (mkTest cs 0 f b) p u h) =
  Some (mkSystem (mkTest (<[0%nat := to_uint16 capture]> cs) 1 f b) p u
          (h ++ [(CaptureInterrupt, St_captures 0 (to_uint16 capture));
                 (CaptureInterrupt, St_captureIndex 1)])).
Proof.
  rewrite step_interrupt. cbn [test]. rewrite handle_first_capture.
  reflexivity.
Qed.

Lemma step_second_capture_idle (n capture : Z) (cs : list Z) (f : Z)
    (p : ProgramPoint) (u : list ascii) (h : list (ExecutionContext * Store)) :
  step (Interrupt EVENT_COMPARE3 n capture)
       (mkSystem (mkTest cs 1 f false) p u h) =
  Some (mkSystem (mkTest (<[1%nat := to_uint16 capture]> cs) 0 f false) p u
          (h ++ [(CaptureInterrupt, St_captures 1 (to_uint16 capture));
                 (CaptureInterrupt, St_captureIndex 2);
                 (CaptureInterrupt, St_captureIndex 0)])).
Proof.
  rewrite step_interrupt. cbn [test]. rewrite handle_second_capture_idle.
  reflexivity.
Qed.

Lemma step_second_capture_ready (n capture first second f : Z)
    (p : ProgramPoint) (u : list ascii) (h : list (ExecutionContext * Store)) :
  step (Interrupt EVENT_COMPARE3 n capture)
       (mkSystem (mkTest [first; second] 1 f true) p u h) =
  Some (mkSystem
          (mkTest [first; to_uint16 capture] 0
                  (pair_frequency (first, to_uint16 capture)) false) p u
          (h ++ [(CaptureInterrupt, St_captures 1 (to_uint16 capture));
                 (CaptureInterrupt, St_captureIndex 2);
                 (CaptureInterrupt,
                  St_capturedFrequency
                    (pair_frequency (first, to_uint16 capture)));
                 (CaptureInterrupt, St_capturingNextFrequency true false);
                 (CaptureInterrupt, St_captureIndex 0)])).
Proof.
  rewrite step_interrupt. cbn [test]. rewrite handle_second_capture_ready.
  reflexivity.
Qed.

Lemma published_app (h1 h2 : list (ExecutionContext * Store)) :
  published (h1 ++ h2) = published h1 ++ published h2.
Proof.
  induction h1 as [|[who st] h1 IH]; [reflexivity|].
  destruct st; simpl; rewrite IH; reflexivity.
Qed.

Lemma execute_app (l1 l2 : list Action) (s : System) :
  execute (l1 ++ l2) s =
  match execute l1 s with
  | Some s1 => execute l2 s1
  | None => None
  end.
Proof.
  revert s. induction l1 as [|a l1 IH]; intros s; [reflexivity|].
  simpl. destruct (step a s); [apply IH|reflexivity].
Qed.

(** X5.  Once a frequency is published it waits for the main loop: while
    the flag is clear, interrupts alone, however many and of whatever kind,
    leave [_capturedFrequency] and the flag as they are, publish nothing
    and write nothing. *)
Theorem published_frequency_waits_for_main_loop
    (n : Z) (events : list (TimerEventType * Z)) (s : System) :
  length (_captures (test s)) = 2%nat ->
  _captureIndex (test s) = 0 \/ _captureIndex (test s) = 1 ->
  _capturingNextFrequency (test s) = false ->
  exists s' : System,
    execute (interrupts n events) s = Some s'
    /\ _capturedFrequency (test s') = _capturedFrequency (test s)
    /\ _capturingNextFrequency (test s') = false
    /\ published (history s') = published (history s)
    /\ usart s' = usart s
    /\ pc s' = pc s.
Proof.
  revert s. induction events as [|[tet capture] events IH]; intros s.
  - intros _ _ Hflag. exists s. repeat split; auto.
  - destruct s as [[cs idx f b] p u h]. simpl.
    intros Hlen Hidx ->.
    destruct cs as [|c0 [|c1 [|? ?]]]; try discriminate Hlen.
    change (perform CaptureInterrupt (onInterrupt tet n capture) ?x)
      with (step (Interrupt tet n capture) x).
    destruct (TimerEventType_eqb tet EVENT_COMPARE3) eqn:E.
    + apply TimerEventType_eqb_eq in E. subst tet.
      destruct Hidx as [-> | ->].
      * rewrite step_first_capture.
        edestruct IH as (s' & Hs & Hf & Hb & Hp & Hu & Hpc);
          [| | |exists s'; split; [exact Hs|]]; simpl; auto.
        simpl in *. rewrite Hp, published_app, app_nil_r. auto.
      * rewrite step_second_capture_idle.
        edestruct IH as (s' & Hs & Hf & Hb & Hp & Hu & Hpc);
          [| | |exists s'; split; [exact Hs|]]; simpl; auto.
        simpl in *. rewrite Hp, published_app, app_nil_r. auto.
    + rewrite (step_irrelevant (Interrupt tet n capture) _ E).
      edestruct IH as (s' & Hs & Hrest);
        [| | |exists s'; split; [exact Hs|exact Hrest]]; simpl; auto.
Qed.

(** What the program needs of a state to run on: two capture slots, the
    index at 0 or 1, and the flag clear while the main loop is past its
    wait. *)
Lemma step_handed_over (a : Action) (s : System) (fs : list Z) :
  length (_captures (test s)) = 2%nat ->
  _captureIndex (test s) = 0 \/ _captureIndex (test s) = 1 ->
  (pc s <> AwaitingCapture -> _capturingNextFrequency (test s) = false) ->
  handed_over s fs ->
  exists (s' : System) (fs' : list Z),
    step a s = Some s'
    /\ length (_captures (test s')) = 2%nat
    /\ (_captureIndex (test s') = 0 \/ _captureIndex (test s') = 1)
    /\ (pc s' <> AwaitingCapture -> _capturingNextFrequency (test s') = false)
    /\ handed_over s' fs'.
Proof.
  destruct s as [[cs idx f b] p u h]. unfold handed_over. simpl.
  intros Hlen Hidx Hpc [Hu Hp].
  destruct cs as [|c0 [|c1 [|? ?]]]; try discriminate Hlen.
  destruct a as [tet n capture|].
  - destruct (TimerEventType_eqb tet EVENT_COMPARE3) eqn:E.
    + apply TimerEventType_eqb_eq in E. subst tet.
      destruct Hidx as [-> | ->].
      * rewrite step_first_capture. do 2 eexists.
        split; [reflexivity|]. simpl.
        rewrite published_app, app_nil_r. eauto 10.
      * destruct b.
        -- assert (p = AwaitingCapture) as ->.
           { destruct p; try reflexivity; discriminate Hpc; discriminate. }
           rewrite step_second_capture_ready. do 2 eexists.
           split; [reflexivity|]. simpl.
           rewrite published_app, Hp. simpl. eauto 10.
        -- rewrite step_second_capture_idle. do 2 eexists.
           split; [reflexivity|]. simpl.
           rewrite published_app, app_nil_r. eauto 10.
    + rewrite (step_irrelevant (Interrupt tet n capture) _ E).
      do 2 eexists. split; [reflexivity|]. simpl. eauto 10.
  - unfold step, run_step. simpl pc. destruct p.
    + destruct b; do 2 eexists; (split; [reflexivity|]); simpl; eauto 10.
    + exists (mkSystem (mkTest [c0; c1] idx f b) Pausing (u ++ frame f) h),
        (fs ++ [f]).
      split; [reflexivity|]. simpl.
      rewrite map_app, concat_app, Hu. simpl. rewrite app_nil_r. auto 10.
    + do 2 eexists. split; [reflexivity|]. simpl. eauto 10.
    + rewrite Hpc in * by discriminate.
      do 2 eexists. split; [reflexivity|]. simpl.
      rewrite published_app, app_nil_r. split; [reflexivity|].
      split; [exact Hidx|]. split; [intros H; contradiction|].
      split; [exact Hu|exact Hp].
Qed.

Lemma execute_handed_over (l : list Action) (s : System) (fs : list Z) :
  length (_captures (test s)) = 2%nat ->
  _captureIndex (test s) = 0 \/ _captureIndex (test s) = 1 ->
  (pc s <> AwaitingCapture -> _capturingNextFrequency (test s) = false) ->
  handed_over s fs ->
  exists (s' : System) (fs' : list Z),
    execute l s = Some s' /\ handed_over s' fs'.
Proof.
  revert s fs. induction l as [|a l IH]; intros s fs H1 H2 H3 H4.
  - exists s, fs. split; [reflexivity|exact H4].
  - destruct (step_handed_over a s fs H1 H2 H3 H4)
      as (s1 & fs1 & Hstep & K1 & K2 & K3 & K4).
    simpl. rewrite Hstep. apply (IH s1 fs1); assumption.
Qed.

(** X6.  Each published frequency is written exactly once and in order: in
    every execution from the initial state the output is the frames of the
    values stored to [_capturedFrequency], in the order of the stores; the
    only value that may still be unwritten is the last one, published
    since the loop last waited, and it is then still in
    [_capturedFrequency]. *)
Theorem published_frequencies_are_written_once_in_order
    (o : TimerInputCaptureTest) (schedule : list Action) :
  length (_captures o) = 2%nat ->
  exists (s : System) (fs : list Z),
    execute schedule (boot o) = Some s
    /\ usart s = concat (map frame fs)
    /\ (published (history s) = fs
        \/ published (history s) = fs ++ [_capturedFrequency (test s)]).
Proof.
  intros Hlen.
  destruct (execute_handed_over schedule (boot o) [])
    as (s & fs & Hs & Hu & Hp).
  - exact Hlen.
  - left. reflexivity.
  - intros H. contradiction.
  - split; reflexivity.
  - exists s, fs. split; [exact Hs|]. split; [exact Hu|].
    rewrite Hp. destruct (pc s), (_capturingNextFrequency (test s)); auto.
Qed.

Lemma execute_measurement_cycle (n : Z) (p : Z * Z) (rest : list Action)
    (c0 c1 f : Z) (u : list ascii) (h : list (ExecutionContext * Store)) :
  exists h' : list (ExecutionContext * Store),
    execute (measurement_cycle n p ++ rest)
      (mkSystem (mkTest [c0; c1] 0 f true) AwaitingCapture u h) =
    execute rest
      (mkSystem
         (mkTest [to_uint16 (fst p); to_uint16 (snd p)] 0
            (pair_frequency (to_uint16 (fst p), to_uint16 (snd p))) true)
         AwaitingCapture
         (u ++ frame (pair_frequency (to_uint16 (fst p), to_uint16 (snd p))))
         h')
    /\ published h' =
       published h ++ [pair_frequency (to_uint16 (fst p), to_uint16 (snd p))].
Proof.
  unfold measurement_cycle. cbn [app]. eexists.
  cbn [execute]. rewrite step_first_capture.
  change (<[0%nat:=to_uint16 (fst p)]> [c0; c1])
    with [to_uint16 (fst p); c1].
  rewrite step_second_capture_ready.
  remember (pair_frequency (to_uint16 (fst p), to_uint16 (snd p))) as F.
  cbn [step run_step pc test _capturingNextFrequency _capturedFrequency
       goto send usart history option_map perform
       store_capturingNextFrequency store object stores map].
  subst F. split; [reflexivity|].
  cbn [history app map]. rewrite !published_app. simpl.
  rewrite !app_nil_r. reflexivity.
Qed.

(** X7.  Measurements compose.  From the initial state, any number of
    rounds of two channel-3 captures followed by one pass of the main loop
    writes one frame per round, in order, each for the frequency of that
    round's own two captures, and ends waiting, armed, with the index at 0:
    no capture is shared between rounds and none is carried over. *)
Theorem measurement_cycles_compose
    (n : Z) (pairs : list (Z * Z)) (o : TimerInputCaptureTest) :
  length (_captures o) = 2%nat ->
  exists s : System,
    execute (flat_map (measurement_cycle n) pairs) (boot o) = Some s
    /\ usart s =
       concat
         (map (fun p =>
                 frame (pair_frequency (to_uint16 (fst p), to_uint16 (snd p))))
              pairs)
    /\ published (history s) =
       map (fun p => pair_frequency (to_uint16 (fst p), to_uint16 (snd p)))
           pairs
    /\ pc s = AwaitingCapture
    /\ _capturingNextFrequency (test s) = true
    /\ _captureIndex (test s) = 0.
Proof.
  intros Hlen.
  assert (Hgen : forall (l : list (Z * Z)) (c0 c1 f : Z) (u : list ascii)
                        (h : list (ExecutionContext * Store)),
    exists s : System,
      execute (flat_map (measurement_cycle n) l)
        (mkSystem (mkTest [c0; c1] 0 f true) AwaitingCapture u h) = Some s
      /\ usart s =
         u ++ concat
           (map (fun p =>
                   frame
                     (pair_frequency (to_uint16 (fst p), to_uint16 (snd p))))
                l)
      /\ published (history s) =
         published h ++
         map (fun p => pair_frequency (to_uint16 (fst p), to_uint16 (snd p)))
             l
      /\ pc s = AwaitingCapture
      /\ _capturingNextFrequency (test s) = true
      /\ _captureIndex (test s) = 0).
  { induction l as [|p l IH]; intros c0 c1 f u h.
    - eexists. split; [reflexivity|]. simpl. rewrite !app_nil_r. auto.
    - cbn [flat_map].
      destruct (execute_measurement_cycle n p
                  (flat_map (measurement_cycle n) l) c0 c1 f u h)
        as (h' & -> & Hh').
      edestruct IH as (s & Hs & Hu & Hp & Hrest).
      exists s. split; [exact Hs|]. split; [|split; [|exact Hrest]].
      + rewrite Hu. simpl. rewrite <- app_assoc. reflexivity.
      + rewrite Hp, Hh'. simpl. rewrite <- app_assoc. reflexivity. }
  destruct o as [cs idx f b]. simpl in Hlen.
  destruct cs as [|c0 [|c1 [|? ?]]]; try discriminate Hlen.
  apply (Hgen pairs c0 c1 f [] []).
Qed.

Lemma run_step_keeps_captures (s : System) :
  (pc s <> AwaitingCapture -> _capturingNextFrequency (test s) = false) ->
  exists s' : System,
    run_step s = Some s'
    /\ _captures (test s') = _captures (test s)
    /\ _captureIndex (test s') = _captureIndex (test s)
    /\ published (history s') = published (history s)
    /\ (pc s' <> AwaitingCapture -> _capturingNextFrequency (test s') = false).
Proof.
  destruct s as [[cs idx f b] p u h]. simpl. intros Hpc.
  unfold run_step. simpl pc. destruct p.
  - destruct b; eexists; (split; [reflexivity|]); simpl; auto.
  - eexists. split; [reflexivity|]. simpl. auto.
  - eexists. split; [reflexivity|]. simpl. auto.
  - eexists. split; [reflexivity|]. simpl.
    rewrite published_app, app_nil_r. repeat split. intros H; contradiction.
Qed.

(** The captures of a schedule, paired from the state the schedule starts
    in: a first capture already taken (index 1) pairs with the next one. *)
Lemma execute_pairs (l : list Action) (s : System) :
  length (_captures (test s)) = 2%nat ->
  _captureIndex (test s) = 0 \/ _captureIndex (test s) = 1 ->
  (pc s <> AwaitingCapture -> _capturingNextFrequency (test s) = false) ->
  exists (s' : System) (P : list Z),
    execute l s = Some s'
    /\ published (history s') = published (history s) ++ P
    /\ sublist P
         (map pair_frequency
            (pair_up
               ((if _captureIndex (test s) =? 1
                 then take 1 (_captures (test s)) else [])
                ++ captured l)))
    /\ _captureIndex (test s') =
       (_captureIndex (test s) + Z.of_nat (length (captured l))) mod 2.
Proof.
  revert s. induction l as [|a l IH]; intros s Hlen Hidx Hpc.
  - exists s, []. split; [reflexivity|]. rewrite app_nil_r.
    split; [reflexivity|]. split; [apply sublist_nil_l|].
    simpl. destruct Hidx as [-> | ->]; reflexivity.
  - destruct a as [tet n capture|].
    + destruct s as [[cs idx f b] p u h]. simpl in Hlen, Hidx, Hpc.
      destruct cs as [|c0 [|c1 [|? ?]]]; try discriminate Hlen.
      cbn [execute captured test _captureIndex _captures history].
      destruct (TimerEventType_eqb tet EVENT_COMPARE3) eqn:E.
      * apply TimerEventType_eqb_eq in E. subst tet.
        cbv iota. cbn [length]. rewrite Nat2Z.inj_succ.
        destruct Hidx as [-> | ->].
        -- rewrite step_first_capture.
           edestruct IH as (s' & P & Hs & Hp & Hsub & Hi);
             [| | |exists s', P; split; [exact Hs|]]; simpl; auto.
           simpl in Hp, Hsub, Hi.
           rewrite published_app, app_nil_r in Hp.
           split; [exact Hp|]. split; [exact Hsub|].
           rewrite Hi. f_equal. lia.
        -- destruct b.
           ++ assert (p = AwaitingCapture) as ->.
              { destruct p; try reflexivity; discriminate Hpc; discriminate. }
              rewrite step_second_capture_ready.
              edestruct IH as (s' & P & Hs & Hp & Hsub & Hi);
                [| | |exists s', (pair_frequency (c0, to_uint16 capture) :: P);
                      split; [exact Hs|]]; simpl; auto.
              simpl in Hp, Hsub, Hi.
              rewrite published_app in Hp. simpl in Hp.
              rewrite <- app_assoc in Hp.
              split; [exact Hp|]. split; [apply sublist_skip; exact Hsub|].
              rewrite Hi.
              replace (1 + Z.succ (Z.of_nat (length (captured l))))
                with (0 + Z.of_nat (length (captured l)) + 1 * 2) by lia.
              symmetry. apply Z_mod_plus_full.
           ++ rewrite step_second_capture_idle.
              edestruct IH as (s' & P & Hs & Hp & Hsub & Hi);
                [| | |exists s', P; split; [exact Hs|]]; simpl; auto.
              simpl in Hp, Hsub, Hi.
              rewrite published_app, app_nil_r in Hp.
              split; [exact Hp|]. split; [apply sublist_cons; exact Hsub|].
              rewrite Hi.
              replace (1 + Z.succ (Z.of_nat (length (captured l))))
                with (0 + Z.of_nat (length (captured l)) + 1 * 2) by lia.
              symmetry. apply Z_mod_plus_full.
      * rewrite (step_irrelevant (Interrupt tet n capture) _ E).
        apply (IH (mkSystem (mkTest [c0; c1] idx f b) p u h)); assumption.
    + destruct (run_step_keeps_captures s Hpc)
        as (s1 & Hstep & Hcs & Hi1 & Hp1 & Hpc1).
      cbn [execute captured step]. rewrite Hstep.
      destruct (IH s1) as (s' & P & Hs & Hp & Hsub & Hi).
      * rewrite Hcs. exact Hlen.
      * rewrite Hi1. exact Hidx.
      * exact Hpc1.
      * exists s', P. rewrite <- Hp1, <- Hi1, <- Hcs. auto.
Qed.

(** X9.  The index counts channel-3 captures modulo two: in every
    execution from the initial state [_captureIndex] is the parity of the
    number of channel-3 interrupts served so far, whether the flag was set
    or clear when they came and whatever the main loop did in between. *)
Theorem captureIndex_is_parity_of_captures
    (o : TimerInputCaptureTest) (schedule : list Action) :
  length (_captures o) = 2%nat ->
  exists s : System,
    execute schedule (boot o) = Some s
    /\ _captureIndex (test s) = Z.of_nat (length (captured schedule)) mod 2.
Proof.
  intros Hlen.
  destruct (execute_pairs schedule (boot o)) as (s & P & Hs & _ & _ & Hi).
  - exact Hlen.
  - left. reflexivity.
  - intros H. contradiction.
  - exists s. split; [exact Hs|]. exact Hi.
Qed.

(** X10.  What is written is what was measured: in every execution from
    the initial state the output is a sequence of frames, and the values of
    the frames are, in order and without repetition, frequencies of pairs
    of successive channel-3 captures (the first and second, third and
    fourth, ... since [run] started). *)
Theorem written_frames_report_successive_pairs
    (o : TimerInputCaptureTest) (schedule : list Action) :
  length (_captures o) = 2%nat ->
  exists (s : System) (fs : list Z),
    execute schedule (boot o) = Some s
    /\ usart s = concat (map frame fs)
    /\ sublist fs (map pair_frequency (pair_up (captured schedule))).
Proof.
  intros Hlen.
  destruct (execute_handed_over schedule (boot o) [])
    as (s & fs & Hs & Hu & Hp);
    [exact Hlen|left; reflexivity|intros H; contradiction
    |split; reflexivity|].
  destruct (execute_pairs schedule (boot o))
    as (s' & P & Hs' & Hp' & Hsub & _);
    [exact Hlen|left; reflexivity|intros H; contradiction|].
  rewrite Hs in Hs'. injection Hs' as <-.
  exists s, fs. split; [exact Hs|]. split; [exact Hu|].
  simpl in Hp'. rewrite Hp' in Hp.
  transitivity P; [|exact Hsub].
  destruct (pc s), (_capturingNextFrequency (test s)); rewrite Hp;
    try reflexivity; apply sublist_inserts_r; reflexivity.
Qed.

(** ** The written frames *)

Lemma sublist_Forall_l {A : Type} (P : A -> Prop) (l1 l2 : list A) :
  sublist l1 l2 -> Forall P l2 -> Forall P l1.
Proof.
  induction 1 as [|x l1 l2 _ IH|x l1 l2 _ IH]; intros H.
  - constructor.
  - inversion H; subst. constructor; auto.
  - inversion H; subst. auto.
Qed.

Lemma sublist_map {A B : Type} (g : A -> B) (l1 l2 : list A) :
  sublist l1 l2 -> sublist (map g l1) (map g l2).
Proof.
  induction 1 as [|x l1 l2 _ IH|x l1 l2 _ IH]; simpl.
  - constructor.
  - apply sublist_skip. exact IH.
  - apply sublist_cons. exact IH.
Qed.

Lemma pair_frequencies_fit (ps : list (Z * Z)) :
  Forall (fun f : Z => is_uint32 f = true) (map pair_frequency ps).
Proof.
  induction ps as [|p ps IH]; simpl; constructor; [|exact IH].
  apply to_uint32_fits.
Qed.

(** The digits have no leading zero: a number below ten has one digit, and
    a number of [k > 1] digits is at least [10^(k-1)]. *)
Lemma uitoa10_digits_canonical (n : nat) (value : Z) :
  0 <= value < 10 ^ Z.of_nat (S n) ->
  length (uitoa10_digits (S n) value []) = 1%nat /\ value < 10
  \/ 10 ^ (Z.of_nat (length (uitoa10_digits (S n) value [])) - 1) <= value.
Proof.
  revert value. induction n as [|n IH]; intros value Hv.
  - change (10 ^ Z.of_nat 1) with 10 in Hv. left.
    rewrite uitoa10_digits_S. cbn [uitoa10_digits].
    destruct (value / 10 =? 0); split; try reflexivity; lia.
  - rewrite (uitoa10_digits_S (S n)).
    assert (Hr : 0 <= value mod 10 < 10) by (apply Z.mod_pos_bound; lia).
    pose proof (Z.div_mod value 10 ltac:(lia)) as Hdm.
    destruct (Z.eqb_spec (value / 10) 0) as [Hq|Hq].
    + left. split; [reflexivity|lia].
    + right. rewrite uitoa10_digits_tail, length_app. cbn [length].
      assert (Hv' : 0 <= value / 10 < 10 ^ Z.of_nat (S n)).
      { rewrite (Nat2Z.inj_succ (S n)), Z.pow_succ_r in Hv by lia.
        split; [apply Z.div_pos; lia|].
        apply Z.div_lt_upper_bound; lia. }
      destruct (uitoa10_digits_correct n (value / 10) Hv') as (_ & _ & Hlen).
      destruct (IH (value / 10) Hv') as [[H1 Hsmall] | Hbig].
      * rewrite H1. change (10 ^ (Z.of_nat (1 + 1) - 1)) with 10. lia.
      * replace (Z.of_nat
                   (length (uitoa10_digits (S n) (value / 10) []) + 1) - 1)
          with (Z.succ
                  (Z.of_nat (length (uitoa10_digits (S n) (value / 10) []))
                   - 1)) by lia.
        rewrite Z.pow_succ_r by lia. lia.
Qed.

Lemma modp_uitoa10_canonical (value : Z) :
  is_uint32 value = true ->
  length (modp_uitoa10 value) = 1%nat /\ value < 10
  \/ 10 ^ (Z.of_nat (length (modp_uitoa10 value)) - 1) <= value.
Proof.
  intros H. apply is_uint32_iff in H.
  apply (uitoa10_digits_canonical 9).
  change (10 ^ Z.of_nat 10) with 10000000000. lia.
Qed.

(** C9.  In every execution from the initial state the characters sent to
    the output are one frame for each frequency the handler has published,
    in the order of publication (the last published one may still be
    waiting in [_capturedFrequency]).  The frame of a frequency is its
    decimal digits followed by [H], [z], carriage return and line feed: the
    frequency is a 32-bit unsigned integer, the digits are between one and
    ten decimal digits that denote it, without leading zero.  A pass of the
    loop at the write sends this frame for the value [_capturedFrequency]
    holds then. *)
Theorem frames_are_decimal_Hz_CRLF
    (o : TimerInputCaptureTest) (schedule : list Action) :
  length (_captures o) = 2%nat ->
  exists (s : System) (fs : list Z),
    execute schedule (boot o) = Some s
    /\ usart s =
       concat
         (map (fun f : Z =>
                 modp_uitoa10 f
                 ++ ["H"; "z"; ascii_of_nat 13; ascii_of_nat 10]%char)
              fs)
    /\ (published (history s) = fs
        \/ published (history s) = fs ++ [_capturedFrequency (test s)])
    /\ Forall
         (fun f : Z =>
            0 <= f < 2 ^ 32
            /\ decimal_value (modp_uitoa10 f) = f
            /\ forallb is_digit (modp_uitoa10 f) = true
            /\ (1 <= length (modp_uitoa10 f) <= 10)%nat
            /\ (length (modp_uitoa10 f) = 1%nat /\ f < 10
                \/ 10 ^ (Z.of_nat (length (modp_uitoa10 f)) - 1) <= f))
         fs
    /\ forall (t : TimerInputCaptureTest) (u : list ascii)
         (h : list (ExecutionContext * Store)),
         run_step (mkSystem t WritingFrequency u h) =
         Some (mkSystem t Pausing
                 (u ++ modp_uitoa10 (_capturedFrequency t)
                    ++ ["H"; "z"; ascii_of_nat 13; ascii_of_nat 10]%char)
                 h).
Proof.
  intros Hlen.
  destruct (execute_handed_over schedule (boot o) [])
    as (s & fs & Hs & Hu & Hp);
    [exact Hlen|left; reflexivity|intros H; contradiction
    |split; reflexivity|].
  destruct (execute_pairs schedule (boot o))
    as (s' & P & Hs' & Hp' & Hsub & _);
    [exact Hlen|left; reflexivity|intros H; contradiction|].
  rewrite Hs in Hs'. injection Hs' as <-. simpl in Hp'.
  exists s, fs. split; [exact Hs|]. split; [exact Hu|]. split; [|split].
  - rewrite Hp. destruct (pc s), (_capturingNextFrequency (test s)); auto.
  - assert (Hfit : Forall (fun f : Z => is_uint32 f = true) fs).
    { apply (sublist_Forall_l _ fs (published (history s))).
      - rewrite Hp.
        destruct (pc s), (_capturingNextFrequency (test s));
          try reflexivity; apply sublist_inserts_r; reflexivity.
      - rewrite Hp'. eapply sublist_Forall_l; [exact Hsub|].
        apply pair_frequencies_fit. }
    eapply Forall_impl; [exact Hfit|]. intros f Hf. simpl in Hf.
    split; [apply is_uint32_iff; exact Hf|].
    destruct (modp_uitoa10_correct f Hf) as (Hval & Hdig & Hl).
    repeat split; try assumption; try apply Hl.
    apply modp_uitoa10_canonical. exact Hf.
  - reflexivity.
Qed.

(** ** Which pairs are published *)

Lemma armed_pairs_sublist (l : list (Z * bool)) :
  sublist (armed_pairs l) (pair_up (map fst l)).
Proof.
  assert (H : sublist (armed_pairs l) (pair_up (map fst l))
              /\ forall x : Z * bool,
                   sublist (armed_pairs (x :: l))
                           (pair_up (map fst (x :: l)))).
  { induction l as [|[b fb] l [IH1 IH2]].
    - split; [constructor|]. intros [a fa]. constructor.
    - split; [apply IH2|]. intros [a fa]. simpl.
      destruct fb; simpl.
      + apply sublist_skip. exact IH1.
      + apply sublist_cons. exact IH1. }
  apply H.
Qed.

Lemma execute_armed_pairs (l : list Action) (s : System) :
  length (_captures (test s)) = 2%nat ->
  _captureIndex (test s) = 0 \/ _captureIndex (test s) = 1 ->
  (pc s <> AwaitingCapture -> _capturingNextFrequency (test s) = false) ->
  exists s' : System,
    execute l s = Some s'
    /\ map fst (observed l s) = captured l
    /\ published (history s') =
       published (history s)
       ++ map pair_frequency
            (armed_pairs
               ((if _captureIndex (test s) =? 1
                 then map (fun c : Z => (c, false))
                          (take 1 (_captures (test s)))
                 else [])
                ++ observed l s)).
Proof.
  revert s. induction l as [|a l IH]; intros s Hlen Hidx Hpc.
  - exists s. split; [reflexivity|]. split; [reflexivity|].
    destruct s as [[cs idx f b] p u h]. simpl in *.
    destruct cs as [|c0 [|c1 [|? ?]]]; try discriminate Hlen.
    destruct Hidx as [-> | ->]; simpl; rewrite app_nil_r; reflexivity.
  - destruct a as [tet n capture|].
    + destruct s as [[cs idx f b] p u h]. simpl in Hlen, Hidx, Hpc.
      destruct cs as [|c0 [|c1 [|? ?]]]; try discriminate Hlen.
      cbn [execute observed captured test _captureIndex _captures history
           _capturingNextFrequency].
      destruct (TimerEventType_eqb tet EVENT_COMPARE3) eqn:E.
      * apply TimerEventType_eqb_eq in E. subst tet.
        destruct Hidx as [-> | ->].
        -- rewrite step_first_capture.
           edestruct IH as (s' & Hs & Hobs & Hp);
             [| | |exists s'; split; [exact Hs|]]; simpl; auto.
           simpl in Hobs, Hp. rewrite Hobs. split; [reflexivity|].
           rewrite published_app, app_nil_r in Hp. rewrite Hp.
           reflexivity.
        -- destruct b.
           ++ assert (p = AwaitingCapture) as ->.
              { destruct p; try reflexivity; discriminate Hpc; discriminate. }
              rewrite step_second_capture_ready.
              edestruct IH as (s' & Hs & Hobs & Hp);
                [| | |exists s'; split; [exact Hs|]]; simpl; auto.
              simpl in Hobs, Hp. rewrite Hobs. split; [reflexivity|].
              rewrite published_app in Hp. simpl in Hp.
              rewrite <- app_assoc in Hp. exact Hp.
           ++ rewrite step_second_capture_idle.
              edestruct IH as (s' & Hs & Hobs & Hp);
                [| | |exists s'; split; [exact Hs|]]; simpl; auto.
              simpl in Hobs, Hp. rewrite Hobs. split; [reflexivity|].
              rewrite published_app, app_nil_r in Hp. exact Hp.
      * rewrite (step_irrelevant (Interrupt tet n capture) _ E).
        apply (IH (mkSystem (mkTest [c0; c1] idx f b) p u h)); assumption.
    + destruct (run_step_keeps_captures s Hpc)
        as (s1 & Hstep & Hcs & Hi1 & Hp1 & Hpc1).
      cbn [execute observed captured step]. rewrite Hstep.
      destruct (IH s1) as (s' & Hs & Hobs & Hp).
      * rewrite Hcs. exact Hlen.
      * rewrite Hi1. exact Hidx.
      * exact Hpc1.
      * exists s'. rewrite <- Hp1, <- Hi1, <- Hcs. auto.
Qed.

(** X8.  The published frequencies are exactly those of the pairs of
    successive channel-3 captures (the first and second, third and fourth,
    ... since [run] started, as stored in 16 bits) whose second capture
    found the flag set, in the order of the pairs: a pair completed with
    the flag set is always published, once, and a pair completed with the
    flag clear never is. *)
Theorem published_frequencies_come_from_successive_pairs
    (o : TimerInputCaptureTest) (schedule : list Action) :
  length (_captures o) = 2%nat ->
  exists s : System,
    execute schedule (boot o) = Some s
    /\ map fst (observed schedule (boot o)) = captured schedule
    /\ published (history s) =
       map pair_frequency (armed_pairs (observed schedule (boot o)))
    /\ sublist (published (history s))
         (map pair_frequency (pair_up (captured schedule))).
Proof.
  intros Hlen.
  destruct (execute_armed_pairs schedule (boot o)) as (s & Hs & Hobs & Hp).
  - exact Hlen.
  - left. reflexivity.
  - intros H. contradiction.
  - exists s. simpl in Hp. split; [exact Hs|]. split; [exact Hobs|].
    split; [exact Hp|]. rewrite Hp, <- Hobs.
    apply sublist_map. apply armed_pairs_sublist.
Qed.

End InputTimer.

(** ** The reference scenarios *)

Lemma elapsed_of_period (t period : Z) :
  0 <= period < 2 ^ 16 ->
  elapsed COUNTER_MAX (to_uint16 t) (to_uint16 (t + period)) = period.
Proof.
  intros H. unfold elapsed, COUNTER_MAX, to_uint16.
  change (65535 + 1) with (2 ^ 16).
  rewrite <- Zminus_mod. replace (t + period - t) with period by lia.
  apply Z.mod_small. exact H.
Qed.

Lemma two_captures_publish (clock invalid n t period : Z)
    (o : TimerInputCaptureTest) (first second : Z) :
  0 < period < 2 ^ 16 ->
  is_uint32 clock = true ->
  _captures o = [first; second] ->
  exists s : System,
    execute clock invalid
      [Interrupt EVENT_COMPARE3 n t; Interrupt EVENT_COMPARE3 n (t + period)]
      (boot o) = Some s
    /\ _capturedFrequency (test s) = clock / period
    /\ _capturingNextFrequency (test s) = false.
Proof.
  intros Hp Hclock Hcs. unfold boot, initialise. rewrite Hcs.
  unfold execute. rewrite step_interrupt. simpl test.
  rewrite handle_first_capture. simpl object.
  rewrite step_interrupt. simpl test.
  change (<[0%nat:=to_uint16 t]> [first; second])
    with [to_uint16 t; second].
  rewrite handle_second_capture_ready. cbv zeta.
  eexists. split; [reflexivity|]. simpl. split; [|reflexivity].
  unfold measurement. rewrite elapsed_of_period by lia.
  destruct (Z.eqb_spec period 0) as [E|_]; [lia|].
  apply to_uint32_small. apply quotient_fits; [exact Hclock|lia].
Qed.

(** C8.  With a tick rate of 24,000,000 two captures 240 ticks apart give
    the frequency 100,000, and with a tick rate of 800,000 two captures 80
    ticks apart give 10,000: as the value of the frequency calculation, and
    as the value published after two consecutive channel-3 captures from
    the initial state (whatever the counter reads at the first one). *)
Theorem reference_scenarios
    (invalid n t first second index f : Z) (b : bool) (m : Machine) :
  calculateFrequency 24000000 invalid (to_uint16 t) (to_uint16 (t + 240)) m
    = Returns 100000 m
  /\ calculateFrequency 800000 invalid (to_uint16 t) (to_uint16 (t + 80)) m
    = Returns 10000 m
  /\ (exists s : System,
        execute 24000000 invalid
          [Interrupt EVENT_COMPARE3 n t; Interrupt EVENT_COMPARE3 n (t + 240)]
          (boot (mkTest [first; second] index f b)) = Some s
        /\ _capturedFrequency (test s) = 100000
        /\ _capturingNextFrequency (test s) = false)
  /\ (exists s : System,
        execute 800000 invalid
          [Interrupt EVENT_COMPARE3 n t; Interrupt EVENT_COMPARE3 n (t + 80)]
          (boot (mkTest [first; second] index f b)) = Some s
        /\ _capturedFrequency (test s) = 10000
        /\ _capturingNextFrequency (test s) = false).
Proof.
  repeat split.
  - rewrite calculateFrequency_returns. unfold measurement.
    rewrite elapsed_of_period by lia. reflexivity.
  - rewrite calculateFrequency_returns. unfold measurement.
    rewrite elapsed_of_period by lia. reflexivity.
  - apply (two_captures_publish 24000000 invalid n t 240 _ first second);
      [lia|reflexivity|reflexivity].
  - apply (two_captures_publish 800000 invalid n t 80 _ first second);
      [lia|reflexivity|reflexivity].
Qed.

(** ** The theorems at concrete inputs

    The input timer runs at 24 MHz and [4294967295] stands for an invalid
    measurement. *)

Lemma zero_elapsed_publishes_invalid_measurement_witness :
  is_uint32 4294967295 = true
  /\ elapsed COUNTER_MAX 500 (to_uint16 66036) = 0
  /\ handle 24000000 4294967295 EVENT_COMPARE3 3 66036
       (mkTest [500; 17] 1 100000 true) =
     Returns tt
       (mkMachine (mkTest [500; 500] 0 4294967295 false)
          [St_captures 1 500; St_captureIndex 2;
           St_capturedFrequency 4294967295;
           St_capturingNextFrequency true false; St_captureIndex 0]).
Proof.
  split; [reflexivity|]. split; [reflexivity|].
  apply (zero_elapsed_publishes_invalid_measurement
           24000000 4294967295 3 66036 500 17 100000);
    reflexivity.
Defined.

Lemma nonzero_elapsed_publishes_quotient_then_clears_flag_witness :
  is_uint32 24000000 = true
  /\ elapsed COUNTER_MAX 65500 (to_uint16 204) <> 0
  /\ handle 24000000 4294967295 EVENT_COMPARE3 3 204
       (mkTest [65500; 17] 1 0 true) =
     Returns tt
       (mkMachine (mkTest [65500; 204] 0 100000 false)
          [St_captures 1 204; St_captureIndex 2;
           St_capturedFrequency 100000;
           St_capturingNextFrequency true false; St_captureIndex 0]).
Proof.
  split; [reflexivity|]. split; [discriminate|].
  apply (nonzero_elapsed_publishes_quotient_then_clears_flag
           24000000 4294967295 3 204 65500 17 0);
    [reflexivity|discriminate].
Defined.

Lemma elapsed_is_tick_distance_witness :
  0 <= 16 /\ 0 <= 65500 < 2 ^ 16 /\ 0 <= 204 < 2 ^ 16
  /\ elapsed (2 ^ 16 - 1) 65500 204 = 2 ^ 16 - 65500 + 204
  /\ elapsed (2 ^ 16 - 1) 65500 204 = 240.
Proof.
  split; [lia|]. split; [lia|]. split; [lia|].
  destruct (elapsed_is_tick_distance 16 65500 204)
    as (Hwrap & _ & _ & Hticks & _); [lia|lia|lia|].
  split; [exact Hwrap|]. apply Hticks; [lia|reflexivity].
Defined.

Lemma captureIndex_alternates_witness :
  well_formed (mkTest [7; 9] 5 77 false) = true
  /\ exists s : System,
       execute 24000000 4294967295
         [Interrupt EVENT_COMPARE3 3 100; MainStep;
          Interrupt EVENT_UPDATE 3 0; Interrupt EVENT_COMPARE3 3 340;
          MainStep; Interrupt EVENT_COMPARE3 3 580]
         (boot (mkTest [7; 9] 5 77 false)) = Some s
       /\ (_captureIndex (test s) = 0 \/ _captureIndex (test s) = 1).
Proof.
  split; [reflexivity|].
  apply (captureIndex_alternates 24000000 4294967295
           (mkTest [7; 9] 5 77 false)).
  reflexivity.
Defined.

Lemma flag_has_one_writer_per_direction_witness :
  well_formed (mkTest [7; 9] 5 77 false) = true
  /\ exists s : System,
       execute 24000000 4294967295
         [Interrupt EVENT_COMPARE3 3 100; Interrupt EVENT_COMPARE3 3 340;
          MainStep; MainStep; MainStep; MainStep;
          Interrupt EVENT_COMPARE3 3 580; Interrupt EVENT_COMPARE3 3 820]
         (boot (mkTest [7; 9] 5 77 false)) = Some s
       /\ forallb disciplined (history s) = true.
Proof.
  split; [reflexivity|].
  apply (flag_has_one_writer_per_direction 24000000 4294967295
           (mkTest [7; 9] 5 77 false)).
  reflexivity.
Defined.

Lemma other_events_change_nothing_witness :
  EVENT_COMPARE1 <> EVENT_COMPARE3
  /\ handle 24000000 4294967295 EVENT_COMPARE1 3 340
       (mkTest [100; 9] 1 77 true) =
     Returns tt (mkMachine (mkTest [100; 9] 1 77 true) []).
Proof.
  split; [discriminate|].
  apply (other_events_change_nothing 24000000 4294967295 EVENT_COMPARE1).
  discriminate.
Defined.

Lemma captures_are_16_bit_witness :
  (1 = 0 \/ 1 = 1)
  /\ exists m : Machine,
       handle 24000000 4294967295 EVENT_COMPARE3 3 65776
         (mkTest [100; 9] 1 77 true) = Returns tt m
       /\ _captures (object m) !! Z.to_nat 1 = Some (65776 mod 2 ^ 16).
Proof.
  split; [right; reflexivity|].
  destruct (captures_are_16_bit 24000000 4294967295 3 65776 100 9 1 77 true)
    as (_ & _ & (m & Hm & Hslot & _) & _); [right; reflexivity|].
  exists m. split; [exact Hm|exact Hslot].
Defined.

(** ** The further properties at concrete inputs *)

Lemma handler_defined_iff_index_in_bounds_witness :
  length [100; 9] = 2%nat
  /\ handle 24000000 4294967295 EVENT_COMPARE3 3 340
       (mkTest [100; 9] 1 77 true) <> UndefinedBehaviour.
Proof.
  split; [reflexivity|].
  apply (handler_defined_iff_index_in_bounds 24000000 4294967295 3 340
           (mkTest [100; 9] 1 77 true)).
  - reflexivity.
  - right. reflexivity.
Defined.

Lemma no_capture_no_progress_witness :
  captured [MainStep; Interrupt EVENT_UPDATE 3 17; MainStep;
            Interrupt EVENT_COMPARE1 3 18; MainStep] = []
  /\ execute 24000000 4294967295
       [MainStep; Interrupt EVENT_UPDATE 3 17; MainStep;
        Interrupt EVENT_COMPARE1 3 18; MainStep]
       (boot (mkTest [7; 9] 5 77 false))
     = Some (boot (mkTest [7; 9] 5 77 false)).
Proof.
  split; [reflexivity|].
  apply (no_capture_no_progress 24000000 4294967295). reflexivity.
Defined.

Lemma published_frequency_waits_for_main_loop_witness :
  exists s' : System,
    execute 24000000 4294967295
      (interrupts 3 [(EVENT_COMPARE3, 580); (EVENT_COMPARE3, 820);
                     (EVENT_UPDATE, 0); (EVENT_COMPARE3, 1060)])
      (mkSystem (mkTest [100; 340] 0 100000 false) Pausing [] []) = Some s'
    /\ _capturedFrequency (test s') = 100000.
Proof.
  destruct (published_frequency_waits_for_main_loop 24000000 4294967295 3
              [(EVENT_COMPARE3, 580); (EVENT_COMPARE3, 820);
               (EVENT_UPDATE, 0); (EVENT_COMPARE3, 1060)]
              (mkSystem (mkTest [100; 340] 0 100000 false) Pausing [] []))
    as (s' & Hs & Hf & _); [reflexivity|left; reflexivity|reflexivity|].
  exists s'. split; [exact Hs|exact Hf].
Defined.

Lemma published_frequencies_are_written_once_in_order_witness :
  length [7; 9] = 2%nat
  /\ exists (s : System) (fs : list Z),
       execute 24000000 4294967295
         [Interrupt EVENT_COMPARE3 3 100; Interrupt EVENT_COMPARE3 3 340;
          MainStep; MainStep; Interrupt EVENT_COMPARE3 3 580; MainStep;
          MainStep; Interrupt EVENT_COMPARE3 3 820]
         (boot (mkTest [7; 9] 5 77 false)) = Some s
       /\ usart s = concat (map frame fs).
Proof.
  split; [reflexivity|].
  destruct (published_frequencies_are_written_once_in_order
              24000000 4294967295 (mkTest [7; 9] 5 77 false)
              [Interrupt EVENT_COMPARE3 3 100; Interrupt EVENT_COMPARE3 3 340;
               MainStep; MainStep; Interrupt EVENT_COMPARE3 3 580; MainStep;
               MainStep; Interrupt EVENT_COMPARE3 3 820])
    as (s & fs & Hs & Hu & _); [reflexivity|].
  exists s, fs. split; [exact Hs|exact Hu].
Defined.

Lemma measurement_cycles_compose_witness :
  length [7; 9] = 2%nat
  /\ exists s : System,
       execute 24000000 4294967295
         (flat_map (measurement_cycle 3) [(100, 340); (65500, 65740)])
         (boot (mkTest [7; 9] 5 77 false)) = Some s
       /\ published (history s) = [100000; 100000].
Proof.
  split; [reflexivity|].
  destruct (measurement_cycles_compose 24000000 4294967295 3
              [(100, 340); (65500, 65740)] (mkTest [7; 9] 5 77 false))
    as (s & Hs & _ & Hp & _); [reflexivity|].
  exists s. split; [exact Hs|exact Hp].
Defined.

Lemma captureIndex_is_parity_of_captures_witness :
  length [7; 9] = 2%nat
  /\ exists s : System,
       execute 24000000 4294967295
         [Interrupt EVENT_COMPARE3 3 100; MainStep;
          Interrupt EVENT_COMPARE3 3 340; Interrupt EVENT_UPDATE 3 0;
          Interrupt EVENT_COMPARE3 3 580]
         (boot (mkTest [7; 9] 5 77 false)) = Some s
       /\ _captureIndex (test s) = 1.
Proof.
  split; [reflexivity|].
  apply (captureIndex_is_parity_of_captures 24000000 4294967295
           (mkTest [7; 9] 5 77 false)
           [Interrupt EVENT_COMPARE3 3 100; MainStep;
            Interrupt EVENT_COMPARE3 3 340; Interrupt EVENT_UPDATE 3 0;
            Interrupt EVENT_COMPARE3 3 580]).
  reflexivity.
Defined.

Lemma written_frames_report_successive_pairs_witness :
  length [7; 9] = 2%nat
  /\ exists (s : System) (fs : list Z),
       execute 24000000 4294967295
         [Interrupt EVENT_COMPARE3 3 100; Interrupt EVENT_COMPARE3 3 340;
          MainStep; MainStep; MainStep; MainStep;
          Interrupt EVENT_COMPARE3 3 580]
         (boot (mkTest [7; 9] 5 77 false)) = Some s
       /\ usart s = concat (map frame fs)
       /\ sublist fs (map (pair_frequency 24000000 4294967295) [(100, 340)]).
Proof.
  split; [reflexivity|].
  apply (written_frames_report_successive_pairs 24000000 4294967295
           (mkTest [7; 9] 5 77 false)
           [Interrupt EVENT_COMPARE3 3 100; Interrupt EVENT_COMPARE3 3 340;
            MainStep; MainStep; MainStep; MainStep;
            Interrupt EVENT_COMPARE3 3 580]).
  reflexivity.
Defined.

Lemma frames_are_decimal_Hz_CRLF_witness :
  length [7; 9] = 2%nat
  /\ exists (s : System) (fs : list Z),
       execute 24000000 4294967295
         [Interrupt EVENT_COMPARE3 3 100; Interrupt EVENT_COMPARE3 3 340;
          MainStep; MainStep; MainStep; MainStep]
         (boot (mkTest [7; 9] 5 77 false)) = Some s
       /\ usart s =
          concat
            (map (fun f : Z =>
                    modp_uitoa10 f
                    ++ ["H"; "z"; ascii_of_nat 13; ascii_of_nat 10]%char)
                 fs)
       /\ (published (history s) = fs
           \/ published (history s) = fs ++ [_capturedFrequency (test s)]).
Proof.
  split; [reflexivity|].
  destruct (frames_are_decimal_Hz_CRLF 24000000 4294967295
              (mkTest [7; 9] 5 77 false)
              [Interrupt EVENT_COMPARE3 3 100; Interrupt EVENT_COMPARE3 3 340;
               MainStep; MainStep; MainStep; MainStep])
    as (s & fs & Hs & Hu & Hp & _); [reflexivity|].
  exists s, fs. split; [exact Hs|]. split; [exact Hu|exact Hp].
Defined.

Lemma published_frequencies_come_from_successive_pairs_witness :
  length [7; 9] = 2%nat
  /\ exists s : System,
       execute 24000000 4294967295
         [Interrupt EVENT_COMPARE3 3 100; Interrupt EVENT_COMPARE3 3 340;
          Interrupt EVENT_COMPARE3 3 580; Interrupt EVENT_COMPARE3 3 820;
          MainStep; MainStep; MainStep; MainStep;
          Interrupt EVENT_COMPARE3 3 1000; Interrupt EVENT_COMPARE3 3 1480]
         (boot (mkTest [7; 9] 5 77 false)) = Some s
       /\ published (history s) = [100000; 50000].
Proof.
  split; [reflexivity|].
  destruct (published_frequencies_come_from_successive_pairs
              24000000 4294967295 (mkTest [7; 9] 5 77 false)
              [Interrupt EVENT_COMPARE3 3 100; Interrupt EVENT_COMPARE3 3 340;
               Interrupt EVENT_COMPARE3 3 580; Interrupt EVENT_COMPARE3 3 820;
               MainStep; MainStep; MainStep; MainStep;
               Interrupt EVENT_COMPARE3 3 1000;
               Interrupt EVENT_COMPARE3 3 1480])
    as (s & Hs & _ & Hp & _); [reflexivity|].
  exists s. split; [exact Hs|]. rewrite Hp. reflexivity.
Defined.
